(** * wifi-connect: captive-portal provisioning workflow

    A shallow embedding of the parts of the repository that carry logic:

    - [NetworkInfoForm] : [ui/src/components/NetworkInfoForm.tsx]
      ([getSchema], [getUiSchema], [isEnterpriseNetwork] and the props handed
      to the [Form] component), together with the fragment of JSON Schema
      that the schema built by [getSchema] uses;
    - [Notifications] : the two versions of
      [ui/src/components/Notifications.tsx];
    - [Bash], [StartWifiConnect], [StartWifiConnectAlt] : the two versions of
      the start script ([start-wifi-connect.sh]), as traces of the commands
      they run;
    - [PortalSession] : the session manager inside the [wifi-connect]
      executable (Rust), as the design document describes it. *)

From Stdlib Require Import List String Ascii ZArith Lia Bool Arith.
From Stdlib Require Import DecimalString Permutation.
Import ListNotations.

Local Open Scope string_scope.

Set Warnings "-register-all".

(* ===================================================================== *)
(** ** JSON values and the JSON Schema keywords used by the form *)
(* ===================================================================== *)

Module Json.

(** Form data is an object whose members are strings; the other scalar
    kinds are kept so that [type] checks mean something. *)
Inductive json : Type :=
| JNull
| JBool (b : bool)
| JNum (z : Z)
| JStr (s : string)
| JObj (members : list (string * json)).

Fixpoint json_eqb (a b : json) {struct a} : bool :=
  match a, b with
  | JNull, JNull => true
  | JBool x, JBool y => Bool.eqb x y
  | JNum x, JNum y => Z.eqb x y
  | JStr x, JStr y => String.eqb x y
  | JObj xs, JObj ys =>
      (fix members_eqb (xs ys : list (string * json)) {struct xs} : bool :=
         match xs, ys with
         | [], [] => true
         | (k, v) :: xs', (k', v') :: ys' =>
             String.eqb k k' && json_eqb v v' && members_eqb xs' ys'
         | _, _ => false
         end) xs ys
  | _, _ => false
  end.

(** [obj[k]]; [None] stands for JavaScript's [undefined]. *)
Fixpoint member (k : string) (members : list (string * json)) : option json :=
  match members with
  | [] => None
  | (k', v) :: rest => if String.eqb k k' then Some v else member k rest
  end.

Definition has_member (k : string) (members : list (string * json)) : bool :=
  match member k members with Some _ => true | None => false end.

End Json.

Module JsonSchema.
Import Json.

Inductive jtype : Type := TString | TObject.

(** The keywords that occur in the schema of the form.  [title] and
    [default] are annotations: they never influence validation. *)
Inductive schema : Type :=
  Schema {
      title : option string;
      type : option jtype;
      default : option json;
      const : option json;
      oneOf : option (list schema);
      properties : list (string * schema);
      required : list string
    }.

Definition type_ok (t : option jtype) (v : json) : bool :=
  match t, v with
  | None, _ => true
  | Some TString, JStr _ => true
  | Some TObject, JObj _ => true
  | Some _, _ => false
  end.

Definition const_ok (c : option json) (v : json) : bool :=
  match c with
  | None => true
  | Some c => json_eqb c v
  end.

(** Validation of an instance against a schema (JSON Schema draft 7,
    restricted to the keywords above):
    - [type]: the instance has the given type;
    - [const]: the instance equals the given value;
    - [oneOf]: the instance is valid against exactly one alternative;
    - [required]: an object instance has each listed member;
    - [properties]: each listed member that is present is valid against
      its sub-schema. *)
Fixpoint validate (s : schema) (v : json) {struct s} : bool :=
  match s with
  | Schema _ ty _ c alts props req =>
      type_ok ty v
      && const_ok c v
      && match alts with
         | None => true
         | Some l =>
             Nat.eqb
               ((fix matching (l : list schema) : nat :=
                   match l with
                   | [] => 0
                   | a :: l' => (if validate a v then 1 else 0) + matching l'
                   end) l)
               1
         end
      && match v with
         | JObj members =>
             forallb (fun k => has_member k members) req
             && (fix props_ok (ps : list (string * schema)) : bool :=
                   match ps with
                   | [] => true
                   | (k, sub) :: ps' =>
                       match member k members with
                       | None => true
                       | Some mv => validate sub mv
                       end
                       && props_ok ps'
                   end) props
         | _ => true
         end
  end.

(** The two inner loops of [validate], by name. *)
Fixpoint count_valid (l : list schema) (v : json) : nat :=
  match l with
  | [] => 0
  | a :: l' => (if validate a v then 1 else 0) + count_valid l' v
  end.

Fixpoint props_valid (members : list (string * json))
         (ps : list (string * schema)) : bool :=
  match ps with
  | [] => true
  | (k, sub) :: ps' =>
      match member k members with
      | None => true
      | Some mv => validate sub mv
      end
      && props_valid members ps'
  end.

End JsonSchema.

(* ===================================================================== *)
(** ** ui/src/components/NetworkInfoForm.tsx *)
(* ===================================================================== *)

Module NetworkInfoForm.
Import Json JsonSchema.

(** [Network] and [NetworkInfo] are imported from [./App]; the form uses
    the members below.  [security] is a string, compared with
    ['enterprise']. *)
Record Network : Type :=
  { ssid : string;
    security : string }.

(** [NetworkInfo]: every member is optional. *)
Record NetworkInfo : Type :=
  { info_ssid : option string;
    info_identity : option string;
    info_passphrase : option string }.


Definition string_schema (t : string) (d : option json)
           (alts : option (list schema)) : schema :=
  {| title := Some t; type := Some TString; default := d; const := None;
     oneOf := alts; properties := []; required := [] |}.

(** [{ const: network.ssid, title: network.ssid }] *)
Definition ssid_option (network : Network) : schema :=
  {| title := Some (ssid network); type := None; default := None;
     const := Some (JStr (ssid network));
     oneOf := None; properties := []; required := [] |}.

(** The titles are those of the current version of the component; an
    earlier version differs in the titles and the placeholder only. *)
Definition getSchema (availableNetworks : list Network) : schema :=
  {| title := None;
     type := Some TObject;
     default := None;
     const := None;
     oneOf := None;
     properties :=
       [ ("ssid",
           string_schema "WiFi network name (SSID)"
             (option_map (fun n => JStr (ssid n)) (hd_error availableNetworks))
             (Some (map ssid_option availableNetworks)));
         ("identity", string_schema "User" (Some (JStr "")) None);
         ("passphrase", string_schema "Password" (Some (JStr "")) None) ];
     required := ["ssid"] |}.

(** The part of the ui schema that depends on the argument and the
    widgets of the other fields; [None] is [undefined], the default
    (visible) text widget. *)
Record UiSchema : Type :=
  { ui_ssid_placeholder : string;
    ui_identity_widget : option string;
    ui_passphrase_widget : option string }.

Definition getUiSchema (isEnterprise : bool) : UiSchema :=
  {| ui_ssid_placeholder := "Select WiFi Network";
     ui_identity_widget := if negb isEnterprise then Some "hidden" else None;
     ui_passphrase_widget := Some "password" |}.

(** [a === b] for a string and a possibly undefined string. *)
Definition strict_eq (a : string) (b : option string) : bool :=
  match b with
  | Some b => String.eqb a b
  | None => false
  end.

Definition isEnterpriseNetwork (networks : list Network)
           (selectedNetworkSsid : option string) : bool :=
  existsb
    (fun network =>
       strict_eq (ssid network) selectedNetworkSsid
       && String.eqb (security network) "enterprise")
    networks.

(** *** The rendered form *)

(** [uiSchema={getUiSchema(isSelectedNetworkEnterprise)}] with
    [isSelectedNetworkEnterprise = isEnterpriseNetwork(availableNetworks, data.ssid)]. *)
Definition formUiSchema (availableNetworks : list Network)
           (data : NetworkInfo) : UiSchema :=
  getUiSchema (isEnterpriseNetwork availableNetworks (info_ssid data)).

Definition identityFieldShown (ui : UiSchema) : bool :=
  match ui_identity_widget ui with
  | Some w => negb (String.eqb w "hidden")
  | None => true
  end.

(** [submitButtonProps.disabled] *)
Definition submitDisabled (availableNetworks : list Network) : bool :=
  (List.length availableNetworks <=? 0)%nat.

(** Form data as the JSON instance that is validated: members that are
    undefined are absent. *)
Definition opt_member (k : string) (v : option string) : list (string * json) :=
  match v with
  | Some s => [(k, JStr s)]
  | None => []
  end.

Definition formMembers (data : NetworkInfo) : list (string * json) :=
  opt_member "ssid" (info_ssid data)
  ++ opt_member "identity" (info_identity data)
  ++ opt_member "passphrase" (info_passphrase data).

Definition toJson (data : NetworkInfo) : json := JObj (formMembers data).

Definition formValid (availableNetworks : list Network) (data : NetworkInfo) : bool :=
  validate (getSchema availableNetworks) (toJson data).

(** The [Form] component calls [onFormSubmit] (here: hands the data to
    [onSubmit]) when the submit button can be pressed and the data is
    valid against the schema; otherwise nothing is submitted. *)
Definition onFormSubmit (availableNetworks : list Network)
           (data : NetworkInfo) : option NetworkInfo :=
  if submitDisabled availableNetworks then None
  else if formValid availableNetworks data then Some data
       else None.

(** [submitButtonProps.style.opacity] *)
Definition submitOpacity (availableNetworks : list Network) : string :=
  if (0 <? List.length availableNetworks)%nat then "1" else "0.6".

(** Number of listed networks whose ssid is [s]. *)
Definition listed (availableNetworks : list Network) (s : string) : nat :=
  List.length (filter (fun n => String.eqb (ssid n) s) availableNetworks).

End NetworkInfoForm.

(* ===================================================================== *)
(** ** The shell constructs used by the start script *)
(* ===================================================================== *)

Module Bash.

Local Open Scope Z_scope.

(** An exit status is an integer in [0, 256). *)
Definition is_status (n : Z) : Prop := 0 <= n < 256.

(** [return n]: the status of the function is [n] modulo 256. *)
Definition return_ (n : Z) : Z := n mod 256.

(** [[ a -eq b ]]: status 0 (true) when the integers are equal. *)
Definition test_eq (a b : Z) : bool := a =? b.

(** *** Expansion of an unquoted command substitution [$(cmd)]

    The output of the command undergoes field splitting on the default
    [IFS] (space, tab, newline; leading and trailing separators produce no
    field, which also removes the trailing newline of the output), and
    each field that contains a pattern character undergoes pathname
    expansion: it is replaced by the matching file names when there are
    any and is left as it is otherwise. *)

Definition is_ifs (c : ascii) : bool :=
  (Ascii.eqb c " " || Ascii.eqb c "009" || Ascii.eqb c "010")%bool.

Definition is_pattern_char (c : ascii) : bool :=
  (Ascii.eqb c "*" || Ascii.eqb c "?" || Ascii.eqb c "[")%bool.

Fixpoint string_exists (p : ascii -> bool) (s : string) : bool :=
  match s with
  | EmptyString => false
  | String c s' => (p c || string_exists p s')%bool
  end.

Definition close_field (cur : string) : list string :=
  match cur with
  | EmptyString => []
  | _ => [cur]
  end.

(** [cur] is the field read so far. *)
Fixpoint split_fields_from (cur : string) (s : string) : list string :=
  match s with
  | EmptyString => close_field cur
  | String c s' =>
      if is_ifs c then close_field cur ++ split_fields_from EmptyString s'
      else split_fields_from (cur ++ String c EmptyString) s'
  end.

Definition split_fields (s : string) : list string :=
  split_fields_from EmptyString s.

(** [matches pattern]: the file names of the working directory that match
    the pattern, as the file system has them when the word is expanded. *)
Definition pathname_expand (matches : string -> list string) (word : string)
  : list string :=
  if string_exists is_pattern_char word then
    match matches word with
    | [] => [word]
    | names => names
    end
  else [word].

Definition expand_unquoted (matches : string -> list string) (output : string)
  : list string :=
  flat_map (pathname_expand matches) (split_fields output).

(** A word on which the expansion is the identity: not empty, no
    separator, no pattern character.  Host names are such words. *)
Definition plain_word (s : string) : bool :=
  (negb (String.eqb s EmptyString)
   && negb (string_exists is_ifs s)
   && negb (string_exists is_pattern_char s))%bool.

(** *** What the script does, as a trace *)

Inductive event : Type :=
| EvWget (status : Z)                    (* wget --spider http://google.com *)
| EvPrintf (text : string)
| EvEcho (text : string)
| EvWifiConnectStart (argv : list string) (* ./wifi-connect is started ... *)
| EvWifiConnectExit (status : Z)          (* ... and has exited *)
| EvSleep (seconds : Z).

(** What one pass through the loop body meets outside the script. *)
Record world : Type :=
  { wget_status : Z;                      (* exit status of wget *)
    hostname_stdout : string;             (* output of hostname *)
    matches : string -> list string;      (* file names matching a pattern *)
    wifi_connect_status : Z }.            (* exit status of wifi-connect *)

Definition newline : string := String "010" EmptyString.

Definition decimal (n : Z) : string := NilZero.string_of_int (Z.to_int n).

Section While.

Variable body : world -> list event.

(** [while true; do body; done], observed for as many passes as there are
    worlds. *)
Fixpoint while_true (ws : list world) : list event :=
  match ws with
  | [] => []
  | w :: ws' => body w ++ while_true ws'
  end.

End While.

(** *** Observations on traces *)

Fixpoint starts (tr : list event) : nat :=
  match tr with
  | [] => 0
  | EvWifiConnectStart _ :: tr' => S (starts tr')
  | _ :: tr' => starts tr'
  end.

Fixpoint exits (tr : list event) : nat :=
  match tr with
  | [] => 0
  | EvWifiConnectExit _ :: tr' => S (exits tr')
  | _ :: tr' => exits tr'
  end.

Fixpoint checks (tr : list event) : nat :=
  match tr with
  | [] => 0
  | EvWget _ :: tr' => S (checks tr')
  | _ :: tr' => checks tr'
  end.

(** Sessions started and not yet finished after the events of [tr]. *)
Definition active (tr : list event) : Z :=
  Z.of_nat (starts tr) - Z.of_nat (exits tr).

(** Seconds slept from the start of [tr] to the next connectivity check;
    [None] when no check follows. *)
Fixpoint slept_until_check (tr : list event) : option Z :=
  match tr with
  | [] => None
  | EvWget _ :: _ => Some 0
  | EvSleep n :: tr' => option_map (Z.add n) (slept_until_check tr')
  | _ :: tr' => slept_until_check tr'
  end.

(** Seconds slept in the whole trace. *)
Fixpoint total_sleep (tr : list event) : Z :=
  match tr with
  | [] => 0
  | EvSleep n :: tr' => n + total_sleep tr'
  | _ :: tr' => total_sleep tr'
  end.

(** The trace without its pauses and its [echo] lines. *)
Fixpoint without_sleep_and_echo (tr : list event) : list event :=
  match tr with
  | [] => []
  | EvSleep _ :: tr' => without_sleep_and_echo tr'
  | EvEcho _ :: tr' => without_sleep_and_echo tr'
  | e :: tr' => e :: without_sleep_and_echo tr'
  end.

(** At every point of the trace at most one session is running; none is
    running when a session is started, nor when connectivity is
    checked. *)
Definition one_session_at_a_time (tr : list event) : Prop :=
  forall p q,
    tr = (p ++ q)%list ->
    0 <= active p <= 1
    /\ (forall argv q', q = EvWifiConnectStart argv :: q' -> active p = 0)
    /\ (forall st q', q = EvWget st :: q' -> active p = 0).

(** Once a session of some pass has exited, the loop goes on to the
    connectivity check of the next pass, without starting a session and
    without any other check in between. *)
Definition polls_after_exit (body : world -> list event) : Prop :=
  forall ws1 w w' ws2 pre c post,
    body w = (pre ++ EvWifiConnectExit c :: post)%list ->
    exists mid rest,
      while_true body (ws1 ++ w :: w' :: ws2)
      = ((while_true body ws1 ++ pre)
           ++ EvWifiConnectExit c :: mid ++ EvWget (wget_status w') :: rest)%list
      /\ starts mid = 0%nat /\ checks mid = 0%nat.

End Bash.

(* ===================================================================== *)
(** ** start-wifi-connect.sh *)
(* ===================================================================== *)

Module StartWifiConnect.
Import Bash.
Local Open Scope Z_scope.

(** [ConnectivityStatus] of the design, read off the branch taken. *)
Inductive ConnectivityStatus : Type := Online | Offline.

(** [check_internet]: runs wget and returns its status. *)
Definition check_internet (w : world) : list event * Z :=
  ([EvWget (wget_status w)], return_ (wget_status w)).

(** [./wifi-connect --portal-ssid $(hostname)], run in the foreground. *)
Definition wifi_connect_argv (w : world) : list string :=
  "./wifi-connect" :: "--portal-ssid"
    :: expand_unquoted (matches w) (hostname_stdout w).

Definition wifi_connect (w : world) : list event * Z :=
  ([EvWifiConnectStart (wifi_connect_argv w);
    EvWifiConnectExit (wifi_connect_status w)],
   wifi_connect_status w).

(** The outcome of the check as the [if] reads it. *)
Definition checkConnectivity (w : world) : ConnectivityStatus :=
  if test_eq (snd (check_internet w)) 0 then Online else Offline.

Definition available_msg : string :=
  "Internet connection is available. Skipping WiFi Connect." ++ newline.

Definition unavailable_msg : string :=
  "Internet connection is unavailable. Starting WiFi Connect." ++ newline.

(** The body of the loop. *)
Definition iteration (w : world) : list event :=
  let (probe, status) := check_internet w in
  probe
  ++ (if test_eq status 0 then [EvPrintf available_msg]
      else EvPrintf unavailable_msg :: fst (wifi_connect w))
  ++ [EvSleep 10].

Definition main_loop : list world -> list event := while_true iteration.

(** Whether the pass takes the branch that starts [wifi-connect]. *)
Definition is_offline (w : world) : bool :=
  match checkConnectivity w with
  | Offline => true
  | Online => false
  end.

End StartWifiConnect.

(** The version of the script that keeps the status of [wifi-connect] in
    [success] and sleeps only when it is 0. *)
Module StartWifiConnectAlt.
Import Bash.
Local Open Scope Z_scope.

Definition check_internet := StartWifiConnect.check_internet.
Definition wifi_connect := StartWifiConnect.wifi_connect.

Definition iteration (w : world) : list event :=
  let (probe, status) := check_internet w in
  let (branch, success) :=
    if test_eq status 0 then
      ([EvPrintf StartWifiConnect.available_msg], 0)
    else
      let (session, code) := wifi_connect w in
      (EvPrintf StartWifiConnect.unavailable_msg :: session
         ++ [EvEcho ("wifi-connect exited with code: " ++ decimal code)],
       code) in
  probe ++ branch ++ (if test_eq success 0 then [EvSleep 60] else []).

Definition main_loop : list world -> list event := while_true iteration.

End StartWifiConnectAlt.

(* ===================================================================== *)
(** ** The provisioning session inside wifi-connect *)
(* ===================================================================== *)

Module PortalSession.

(** Modelled from the spec: the session manager of the [wifi-connect]
    executable, whose Rust source is not among the sources; only its
    caller ([start-wifi-connect.sh]) and the page it serves are.  States
    and transitions follow section 4.2 of the design, the error names
    section 7. *)
Inductive SessionState : Type :=
| Scanning
| AwaitingSubmission
| Applying
| Succeeded
| Failed.

(** Modelled from the spec: the recoverable errors of a join attempt
    (section 7). *)
Inductive JoinError : Type :=
| JoinCredentialInvalid
| JoinTimeout
| JoinAssociationFailure.

(** Modelled from the spec: the data model of section 3. *)
Record CredentialSubmission : Type :=
  { ssid : string;
    identity : option string;
    passphrase : option string }.

(** Modelled from the spec: [PortalSession] of section 3, together with
    the two resources a session owns (access point and local web
    server). *)
Record PortalSession : Type :=
  { state : SessionState;
    startedAt : nat;
    lastError : option string;
    accessPointUp : bool;
    webServerUp : bool }.

(** Modelled from the spec: what a session reacts to.  Time is a clock
    reading delivered to the session. *)
Inductive input : Type :=
| ScanCompleted (networks : list NetworkInfoForm.Network)
| AccessPointStartFailure (reason : string)
| ScanFailure (reason : string)
| Submit (c : CredentialSubmission)
| RescanRequest
| JoinSucceeded
| JoinFailed (e : JoinError)
| ClockTick (now : nat).

(** Modelled from the spec: the name under which a join error is kept in
    [lastError]. *)
Definition join_error_name (e : JoinError) : string :=
  match e with
  | JoinCredentialInvalid => "JoinCredentialInvalid"
  | JoinTimeout => "JoinTimeout"
  | JoinAssociationFailure => "JoinAssociationFailure"
  end.

(** Modelled from the spec: one instance per access-point activation,
    initially [Scanning]. *)
Definition start (now : nat) : PortalSession :=
  {| state := Scanning; startedAt := now; lastError := None;
     accessPointUp := false; webServerUp := false |}.

(** Modelled from the spec: [Succeeded] and [Failed] are terminal; on
    entering them the access point and the web server are torn down. *)
Definition finish (s : PortalSession) (st : SessionState)
           (err : option string) : PortalSession :=
  {| state := st; startedAt := startedAt s; lastError := err;
     accessPointUp := false; webServerUp := false |}.

(** Modelled from the spec: a transition that keeps everything but the
    state. *)
Definition goto (s : PortalSession) (st : SessionState) : PortalSession :=
  {| state := st; startedAt := startedAt s; lastError := lastError s;
     accessPointUp := accessPointUp s; webServerUp := webServerUp s |}.

(** Modelled from the spec: the terminal states. *)
Definition finished (s : PortalSession) : bool :=
  match state s with
  | Succeeded | Failed => true
  | _ => false
  end.

(** Modelled from the spec: a submission is accepted only while the
    state is [AwaitingSubmission]. *)
Definition accepts_submission (s : PortalSession) : bool :=
  match state s with
  | AwaitingSubmission => true
  | _ => false
  end.

Section Session.

(** The overall session timeout. *)
Variable sessionTimeout : nat.

(** Modelled from the spec: the state machine of section 4.2.
    - a session timeout ends the session, whatever the sub-state;
    - [Scanning]: access point and web server come up and the networks are
      listed, then [AwaitingSubmission]; a failure to do so is fatal;
    - [AwaitingSubmission]: a submission leads to [Applying], a rescan
      request back to [Scanning];
    - [Applying]: success ends the session; a failed join keeps the error
      for display and returns to [Scanning], the session going on. *)
Definition step (s : PortalSession) (i : input) : PortalSession :=
  if finished s then s
  else
    match i, state s with
    | ClockTick now, _ =>
        if (startedAt s + sessionTimeout <=? now)%nat
        then finish s Failed (Some "no input received")
        else s
    | ScanCompleted _, Scanning =>
        {| state := AwaitingSubmission; startedAt := startedAt s;
           lastError := lastError s;
           accessPointUp := true; webServerUp := true |}
    | AccessPointStartFailure reason, Scanning => finish s Failed (Some reason)
    | ScanFailure reason, Scanning => finish s Failed (Some reason)
    | Submit _, AwaitingSubmission => goto s Applying
    | RescanRequest, AwaitingSubmission => goto s Scanning
    | JoinSucceeded, Applying => finish s Succeeded (lastError s)
    | JoinFailed e, Applying =>
        {| state := Scanning; startedAt := startedAt s;
           lastError := Some (join_error_name e);
           accessPointUp := accessPointUp s; webServerUp := webServerUp s |}
    | _, _ => s
    end.

(** Modelled from the spec: a session reacting to its inputs in turn. *)
Definition run (s : PortalSession) (inputs : list input) : PortalSession :=
  fold_left step inputs s.

End Session.

(** Modelled from the spec: a finished session signals completion to the
    Connectivity Loop, along with the outcome; a running one signals
    nothing. *)
Definition completion (s : PortalSession) : option SessionState :=
  if finished s then Some (state s) else None.

Definition is_submit (i : input) : bool :=
  match i with
  | Submit _ => true
  | _ => false
  end.

(** Modelled from the spec: the failures that are fatal to a session
    (section 7). *)
Definition is_fatal (i : input) : bool :=
  match i with
  | AccessPointStartFailure _ | ScanFailure _ => true
  | _ => false
  end.

(** Modelled from the spec: whether the clock reading of [i] is at or
    past [deadline]. *)
Definition reaches (deadline : nat) (i : input) : bool :=
  match i with
  | ClockTick now => (deadline <=? now)%nat
  | _ => false
  end.

(** *** Invariants of a session *)

(** While a submission can be made or is being applied, access point and
    web server are up; once the session is over they are down. *)
Definition resources_ok (s : PortalSession) : Prop :=
  match state s with
  | Scanning => True
  | AwaitingSubmission | Applying =>
      accessPointUp s = true /\ webServerUp s = true
  | Succeeded | Failed =>
      accessPointUp s = false /\ webServerUp s = false
  end.

(** What holds of a session that has received no submission: it is not
    applying and has not succeeded. *)
Definition idle (t0 : nat) (s : PortalSession) : Prop :=
  startedAt s = t0 /\ state s <> Applying /\ state s <> Succeeded.

(** Without fatal failure and without submission, a session that is over
    was ended by the session timeout. *)
Definition timed_out_if_over (s : PortalSession) : Prop :=
  finished s = true -> lastError s = Some "no input received".

End PortalSession.

(* ===================================================================== *)
(** ** ui/src/components/Notifications.tsx *)
(* ===================================================================== *)

Module Notifications.

(** The flag of an [Alert]. *)
Inductive level : Type := info | warning | danger.

(** What a [Txt.span] holds: text, [&nbsp;] or [<br />]. *)
Inductive piece : Type :=
| Text (s : string)
| Nbsp
| Br.

Record alert : Type :=
  { alert_level : level;
    spans : list (list piece) }.

Record props : Type :=
  { hasAvailableNetworks : bool;
    attemptedConnect : bool;
    RestartingApp : bool;
    error : string }.

(** [!!error]: a string is truthy when it is not empty. *)
Definition truthy (s : string) : bool := negb (String.eqb s "").

(** [{cond && (<Alert ...>)}] *)
Definition when (cond : bool) (a : alert) : list alert :=
  if cond then [a] else [].

Definition dquote : string := String "034" EmptyString.

(** The component as taken over from the original project. *)
Definition Notifications (p : props) : list alert :=
  when (attemptedConnect p)
       {| alert_level := info;
          spans :=
            [ [Text "Applying changes... "];
              [Text "Your device will soon be online. If connection is unsuccessful, the Access Point will be back up in a few seconds, and reloading this page will allow you to try again."] ] |}
  ++ when (RestartingApp p)
       {| alert_level := info;
          spans :=
            [ [Text "Reloading WiFi list... "];
              [Text "The Access Point will be back up in a few seconds, reload this page to show updated WiFi list."] ] |}
  ++ when (negb (hasAvailableNetworks p))
       {| alert_level := warning;
          spans :=
            [ [Text "No wifi networks available."; Nbsp];
              [Text ("Please ensure there is a network within range and press the button "
                       ++ dquote ++ "Reload WiFi List" ++ dquote ++ ".")] ] |}
  ++ when (truthy (error p))
       {| alert_level := danger;
          spans := [ [Text (error p)] ] |}.

(** The component with the texts of the Data Hub. *)
Definition NotificationsDataHub (p : props) : list alert :=
  when (attemptedConnect p)
       {| alert_level := info;
          spans :=
            [ [Text "Applying changes..."; Br;
               Text "Your device will soon be online. If connection is unsuccessful, the Data Hub WiFi will be back up in a few seconds, and reloading this page will allow you to try again."] ] |}
  ++ when (RestartingApp p)
       {| alert_level := info;
          spans :=
            [ [Text "Reloading WiFi network list..."; Br;
               Text "The Data Hub WiFi will be back up in a few seconds, reload this page to show updated WiFi network list."] ] |}
  ++ when (negb (hasAvailableNetworks p))
       {| alert_level := warning;
          spans :=
            [ [Text "No WiFi network available."; Br;
               Text "Please ensure your WiFi network is within range, then press the button 'Reload WiFi network list'."] ] |}
  ++ when (truthy (error p))
       {| alert_level := warning;
          spans :=
            [ [Text (error p); Br;
               Text "Reconnect to the Data Hub WiFi and try again. If the issue persists contact technical support."] ] |}.

(** The pieces of an alert, span after span. *)
Definition pieces (a : alert) : list piece := List.concat (spans a).

Definition level_eqb (a b : level) : bool :=
  match a, b with
  | info, info | warning, warning | danger, danger => true
  | _, _ => false
  end.

Definition count_level (l : level) (alerts : list alert) : nat :=
  List.length (filter (fun a => level_eqb (alert_level a) l) alerts).

(** Levels of the second version from those of the first. *)
Definition softened (l : level) : level :=
  match l with
  | danger => warning
  | l => l
  end.

End Notifications.

(* ===================================================================== *)
(** ** Concrete inputs used in the examples *)
(* ===================================================================== *)

Module Examples.
Import NetworkInfoForm Bash.

Definition corp : Network := {| ssid := "Corp"; security := "enterprise" |}.

Definition home : Network := {| ssid := "Home"; security := "wpa" |}.

(** Two networks that advertise the same name with different security. *)
Definition campus_open : Network := {| ssid := "Campus"; security := "open" |}.

Definition campus_enterprise : Network :=
  {| ssid := "Campus"; security := "enterprise" |}.

(** The user has chosen an ssid and filled in nothing else. *)
Definition only_ssid (s : string) : NetworkInfo :=
  {| info_ssid := Some s; info_identity := None; info_passphrase := None |}.



(** No connectivity, and [wifi-connect] exits with status 1. *)
Definition offline_failing : world :=
  {| wget_status := 4;
     hostname_stdout := "gaitq-data-hub-01" ++ newline;
     matches := fun _ => [];
     wifi_connect_status := 1 |}.

(** No connectivity, and [wifi-connect] exits with status 0. *)
Definition offline_succeeding : world :=
  {| wget_status := 4;
     hostname_stdout := "gaitq-data-hub-01" ++ newline;
     matches := fun _ => [];
     wifi_connect_status := 0 |}.

Definition online : world :=
  {| wget_status := 0;
     hostname_stdout := "gaitq-data-hub-01" ++ newline;
     matches := fun _ => [];
     wifi_connect_status := 0 |}.

(** A host name that holds a space. *)
Definition two_word_hostname : world :=
  {| wget_status := 4;
     hostname_stdout := "data hub" ++ newline;
     matches := fun _ => [];
     wifi_connect_status := 0 |}.

(** Scenario B of the design: the password is wrong at first. *)
Definition wrong_password : PortalSession.CredentialSubmission :=
  {| PortalSession.ssid := "Home";
     PortalSession.identity := None;
     PortalSession.passphrase := Some "wrong" |}.

Definition until_first_attempt : list PortalSession.input :=
  [PortalSession.ScanCompleted [home]; PortalSession.Submit wrong_password].

(** Nobody submits anything; the clock passes 300. *)
Definition nobody_submits : list PortalSession.input :=
  [PortalSession.ScanCompleted [home]; PortalSession.ClockTick 5;
   PortalSession.RescanRequest; PortalSession.ClockTick 300].

(** The page after a failed attempt, with networks in the list. *)
Definition join_failed_notice : Notifications.props :=
  {| Notifications.hasAvailableNetworks := true;
     Notifications.attemptedConnect := false;
     Notifications.RestartingApp := false;
     Notifications.error := "Failed to connect to the network." |}.

End Examples.

(* ===================================================================== *)
(** * Properties of the form *)
(* ===================================================================== *)

Module FormFacts.
Import Json JsonSchema NetworkInfoForm.

Lemma validate_unfold (s : schema) (v : json) :
  validate s v
  = type_ok (type s) v
    && const_ok (const s) v
    && match oneOf s with
       | None => true
       | Some l => Nat.eqb (count_valid l v) 1
       end
    && match v with
       | JObj members =>
           forallb (fun k => has_member k members) (required s)
           && props_valid members (properties s)
       | _ => true
       end.
Proof.
  destruct s as [t ty d c alts props req]. simpl.
  f_equal; [f_equal|].
  - destruct alts as [l|]; [|reflexivity]. f_equal.
    induction l as [|a l IH]; simpl; [reflexivity|]. now rewrite IH.
  - destruct v; try reflexivity. f_equal.
    induction props as [|[k sub] ps IH]; simpl; [reflexivity|].
    now rewrite IH.
Qed.

(** A string is valid against the alternative of a network exactly when
    it is the ssid of that network. *)
Lemma validate_ssid_option (n : Network) (s : string) :
  validate (ssid_option n) (JStr s) = String.eqb (ssid n) s.
Proof.
  rewrite validate_unfold. simpl.
  now rewrite !andb_true_r.
Qed.

Lemma count_valid_ssid_options (nets : list Network) (s : string) :
  count_valid (map ssid_option nets) (JStr s) = listed nets s.
Proof.
  unfold listed.
  induction nets as [|n nets IH]; [reflexivity|].
  cbn [map count_valid filter].
  rewrite validate_ssid_option, IH.
  destruct (String.eqb (ssid n) s); reflexivity.
Qed.

Lemma validate_plain_string (t : string) (d : option json) (s : string) :
  validate (string_schema t d None) (JStr s) = true.
Proof. rewrite validate_unfold. reflexivity. Qed.

Lemma validate_ssid_schema (t : string) (d : option json)
      (nets : list Network) (s : string) :
  validate (string_schema t d (Some (map ssid_option nets))) (JStr s)
  = Nat.eqb (listed nets s) 1.
Proof.
  rewrite validate_unfold. simpl.
  now rewrite count_valid_ssid_options, andb_true_r.
Qed.

Lemma member_ssid (d : NetworkInfo) :
  member "ssid" (formMembers d) = option_map JStr (info_ssid d).
Proof. destruct d as [[s|] [i|] [p|]]; reflexivity. Qed.

Lemma member_identity (d : NetworkInfo) :
  member "identity" (formMembers d) = option_map JStr (info_identity d).
Proof. destruct d as [[s|] [i|] [p|]]; reflexivity. Qed.

Lemma member_passphrase (d : NetworkInfo) :
  member "passphrase" (formMembers d) = option_map JStr (info_passphrase d).
Proof. destruct d as [[s|] [i|] [p|]]; reflexivity. Qed.

(** What validation of the form data amounts to. *)
Lemma formValid_spec (nets : list Network) (d : NetworkInfo) :
  formValid nets d
  = match info_ssid d with
    | Some s => Nat.eqb (listed nets s) 1
    | None => false
    end.
Proof.
  unfold formValid, toJson. rewrite validate_unfold.
  cbn [getSchema type const oneOf properties required type_ok const_ok
       forallb props_valid andb].
  unfold has_member.
  rewrite member_ssid, member_identity, member_passphrase.
  destruct (info_ssid d) as [s|]; cbn [option_map]; [|reflexivity].
  rewrite validate_ssid_schema.
  destruct (info_identity d), (info_passphrase d); cbn [option_map];
    rewrite ?validate_plain_string, ?andb_true_r; reflexivity.
Qed.

Lemma listed_pos_In (nets : list Network) (s : string) :
  listed nets s <> 0 -> exists n, In n nets /\ ssid n = s.
Proof.
  unfold listed. induction nets as [|n nets IH]; simpl; [congruence|].
  destruct (String.eqb (ssid n) s) eqn:E.
  - intros _. exists n. split; [now left | now apply String.eqb_eq].
  - intros H. destruct (IH H) as [m [Hin Hm]]. exists m. auto.
Qed.

Lemma submitDisabled_nil (nets : list Network) :
  submitDisabled nets = true <-> nets = [].
Proof.
  unfold submitDisabled. destruct nets; simpl; split; congruence.
Qed.

Lemma onFormSubmit_spec (nets : list Network) (d : NetworkInfo) :
  onFormSubmit nets d
  = match info_ssid d with
    | Some s => if Nat.eqb (listed nets s) 1 then Some d else None
    | None => None
    end.
Proof.
  unfold onFormSubmit. rewrite formValid_spec.
  destruct nets as [|n nets]; simpl.
  - destruct (info_ssid d); reflexivity.
  - destruct (info_ssid d); reflexivity.
Qed.

Lemma isEnterpriseNetwork_spec (nets : list Network) (sel : option string) :
  isEnterpriseNetwork nets sel = true
  <-> exists n, In n nets /\ sel = Some (ssid n) /\ security n = "enterprise".
Proof.
  unfold isEnterpriseNetwork. rewrite existsb_exists.
  split; intros [n [Hin H]]; exists n; split; auto.
  - apply andb_true_iff in H. destruct H as [H1 H2].
    apply String.eqb_eq in H2. split; [|assumption].
    destruct sel as [s|]; simpl in H1; [|discriminate].
    apply String.eqb_eq in H1. now subst.
  - destruct H as [-> H2]. simpl.
    now rewrite String.eqb_refl, H2.
Qed.

Lemma identityFieldShown_getUiSchema (b : bool) :
  identityFieldShown (getUiSchema b) = b.
Proof. destruct b; reflexivity. Qed.

End FormFacts.

Module FormClaims.
Import Json JsonSchema NetworkInfoForm FormFacts Examples.







(** C10.  The identity field is shown exactly when some listed network
    has the selected ssid and security 'enterprise'.  Hence, when two
    listed networks share an ssid and one of them is Enterprise, selecting
    that ssid shows the identity field, whichever entry was meant. *)
Theorem identity_field_shown_iff_enterprise_listed
        (nets : list Network) (d : NetworkInfo) :
  (identityFieldShown (formUiSchema nets d) = true
   <-> exists n, In n nets /\ info_ssid d = Some (ssid n)
                 /\ security n = "enterprise")
  /\ (forall n1 n2,
         In n1 nets -> In n2 nets ->
         ssid n1 = ssid n2 ->
         security n1 = "enterprise" ->
         info_ssid d = Some (ssid n2) ->
         identityFieldShown (formUiSchema nets d) = true).
Proof.
  assert (Hiff : identityFieldShown (formUiSchema nets d) = true
                 <-> exists n, In n nets /\ info_ssid d = Some (ssid n)
                               /\ security n = "enterprise").
  { unfold formUiSchema. rewrite identityFieldShown_getUiSchema.
    apply isEnterpriseNetwork_spec. }
  split; [exact Hiff|].
  intros n1 n2 H1 _ Hs He Hd. apply Hiff.
  exists n1. rewrite Hs. auto.
Qed.

Lemma identity_field_shown_iff_enterprise_listed_witness :
  identityFieldShown
    (formUiSchema [campus_open; campus_enterprise] (only_ssid "Campus")) = true.
Proof.
  apply (proj2 (identity_field_shown_iff_enterprise_listed
                  [campus_open; campus_enterprise] (only_ssid "Campus"))
               campus_enterprise campus_open).
  - right. left. reflexivity.
  - left. reflexivity.
  - reflexivity.
  - reflexivity.
  - reflexivity.
Defined.

End FormClaims.

(* ===================================================================== *)
(** * Properties of the start script *)
(* ===================================================================== *)

Module TraceFacts.
Import Bash.
Local Open Scope Z_scope.
Local Open Scope list_scope.

Lemma starts_app (a b : list event) : starts (a ++ b) = (starts a + starts b)%nat.
Proof. induction a as [|[] a IH]; simpl; auto. Qed.

Lemma exits_app (a b : list event) : exits (a ++ b) = (exits a + exits b)%nat.
Proof. induction a as [|[] a IH]; simpl; auto. Qed.

Lemma active_app (a b : list event) : active (a ++ b) = active a + active b.
Proof. unfold active. rewrite starts_app, exits_app. lia. Qed.

Section While.

Variable body : world -> list event.

Lemma while_true_app (ws1 ws2 : list world) :
  while_true body (ws1 ++ ws2) = while_true body ws1 ++ while_true body ws2.
Proof.
  induction ws1 as [|w ws1 IH]; simpl; [reflexivity|].
  now rewrite IH, app_assoc.
Qed.

Lemma in_while_true (e : event) (ws : list world) :
  In e (while_true body ws) <-> exists w, In w ws /\ In e (body w).
Proof.
  induction ws as [|w ws IH]; simpl.
  - split; [contradiction | intros [w [[] _]]].
  - rewrite in_app_iff, IH. split.
    + intros [H | [w' [Hin H]]]; [exists w | exists w']; auto.
    + intros [w' [[<- | Hin] H]]; [left | right; exists w']; auto.
Qed.

(** An event of the trace lies in one pass through the body. *)
Lemma while_true_split (ws : list world) :
  forall p e q,
    while_true body ws = p ++ e :: q ->
    exists ws1 w ws2 p' q',
      ws = ws1 ++ w :: ws2
      /\ body w = p' ++ e :: q'
      /\ p = while_true body ws1 ++ p'
      /\ q = q' ++ while_true body ws2.
Proof.
  induction ws as [|w ws IH]; intros p e q H; simpl in H.
  - destruct p; discriminate.
  - apply app_eq_app in H. destruct H as [l [[Hb Hq] | [Hp Hr]]].
    + destruct l as [|x l].
      * simpl in Hq. symmetry in Hq.
        destruct (IH [] e q Hq) as (ws1 & w' & ws2 & p' & q' & E1 & E2 & E3 & E4).
        exists (w :: ws1), w', ws2, p', q'. repeat split; auto.
        -- simpl. now rewrite E1.
        -- simpl. rewrite <- app_assoc, <- E3, Hb, !app_nil_r. reflexivity.
      * injection Hq as <- Hq.
        exists [], w, ws, p, l. repeat split; auto.
    + destruct (IH l e q Hr) as (ws1 & w' & ws2 & p' & q' & E1 & E2 & E3 & E4).
      exists (w :: ws1), w', ws2, p', q'. repeat split; auto.
      * simpl. now rewrite E1.
      * simpl. rewrite <- app_assoc, <- E3. assumption.
Qed.

Hypothesis body_sequenced : forall w, one_session_at_a_time (body w).
Hypothesis body_balanced : forall w, active (body w) = 0.

Lemma while_true_balanced (ws : list world) : active (while_true body ws) = 0.
Proof.
  induction ws as [|w ws IH]; simpl; [reflexivity|].
  rewrite active_app, body_balanced, IH. reflexivity.
Qed.

(** Sequencing of the passes carries over to the whole loop. *)
Lemma while_true_sequenced (ws : list world) :
  one_session_at_a_time (while_true body ws).
Proof.
  induction ws as [|w ws IH]; intros p q H; simpl in H.
  - symmetry in H. apply app_eq_nil in H. destruct H as [-> ->].
    repeat split; try (unfold active; simpl; lia); intros; discriminate.
  - apply app_eq_app in H. destruct H as [l [[Hb Hq] | [Hp Hr]]].
    + destruct (body_sequenced w p l Hb) as [Hrange [Hstart Hcheck]].
      split; [assumption|].
      destruct l as [|x l].
      * rewrite app_nil_r in Hb. subst p.
        split; intros; apply body_balanced.
      * simpl in Hq. subst q. split.
        -- intros argv q' E. injection E as -> _. eapply Hstart; reflexivity.
        -- intros st q' E. injection E as -> _. eapply Hcheck; reflexivity.
    + subst p. rewrite active_app, body_balanced. simpl.
      apply (IH l q). exact Hr.
Qed.

End While.

(** Case analysis on the ways a trace given event by event splits in
    two. *)
Ltac split_trace H p :=
  repeat (destruct p as [|? p];
          [ simpl in H; try subst
          | simpl in H; try discriminate H; injection H as ? H; try subst ]).

(** The same for the ways an event can sit in such a trace. *)
Ltac split_at H p :=
  repeat (destruct p as [|? p];
          [ simpl in H; try discriminate H
          | simpl in H; try discriminate H; injection H as ? H; try subst ]).

End TraceFacts.

Module ScriptFacts.
Import Bash TraceFacts.
Local Open Scope Z_scope.
Local Open Scope list_scope.

Module S := StartWifiConnect.
Module A := StartWifiConnectAlt.

Lemma status_cases (w : world) :
  S.checkConnectivity w = S.Online \/ S.checkConnectivity w = S.Offline.
Proof. destruct (S.checkConnectivity w); auto. Qed.

(** The two shapes of a pass of [start-wifi-connect.sh]. *)
Lemma iteration_online (w : world) :
  S.checkConnectivity w = S.Online ->
  S.iteration w
  = [EvWget (wget_status w); EvPrintf S.available_msg; EvSleep 10].
Proof.
  unfold S.checkConnectivity, S.iteration, S.check_internet. simpl.
  destruct (test_eq (return_ (wget_status w)) 0); [reflexivity | discriminate].
Qed.

Lemma iteration_offline (w : world) :
  S.checkConnectivity w = S.Offline ->
  S.iteration w
  = [EvWget (wget_status w); EvPrintf S.unavailable_msg;
     EvWifiConnectStart (S.wifi_connect_argv w);
     EvWifiConnectExit (wifi_connect_status w); EvSleep 10].
Proof.
  unfold S.checkConnectivity, S.iteration, S.check_internet. simpl.
  destruct (test_eq (return_ (wget_status w)) 0); [discriminate | reflexivity].
Qed.

(** The shapes of a pass of the version with [success]. *)
Lemma alt_iteration_online (w : world) :
  S.checkConnectivity w = S.Online ->
  A.iteration w
  = [EvWget (wget_status w); EvPrintf S.available_msg; EvSleep 60].
Proof.
  unfold S.checkConnectivity, A.iteration, A.check_internet, S.check_internet.
  simpl.
  destruct (test_eq (return_ (wget_status w)) 0); [reflexivity | discriminate].
Qed.

Lemma alt_iteration_offline (w : world) :
  S.checkConnectivity w = S.Offline ->
  A.iteration w
  = [EvWget (wget_status w); EvPrintf S.unavailable_msg;
     EvWifiConnectStart (S.wifi_connect_argv w);
     EvWifiConnectExit (wifi_connect_status w);
     EvEcho ("wifi-connect exited with code: "
             ++ decimal (wifi_connect_status w))%string]
    ++ (if wifi_connect_status w =? 0 then [EvSleep 60] else []).
Proof.
  unfold S.checkConnectivity, A.iteration, A.check_internet, S.check_internet.
  simpl.
  destruct (test_eq (return_ (wget_status w)) 0); [discriminate | reflexivity].
Qed.

Ltac trace_facts :=
  repeat split;
  try (unfold active; simpl; lia);
  intros; try discriminate;
  unfold active; simpl; lia.

Lemma iteration_sequenced (w : world) : one_session_at_a_time (S.iteration w).
Proof.
  intros p q H.
  destruct (status_cases w) as [E | E];
    [rewrite (iteration_online w E) in H | rewrite (iteration_offline w E) in H];
    split_trace H p; trace_facts.
Qed.

Lemma iteration_balanced (w : world) : active (S.iteration w) = 0.
Proof.
  destruct (status_cases w) as [E | E];
    [rewrite (iteration_online w E) | rewrite (iteration_offline w E)];
    reflexivity.
Qed.

Lemma alt_iteration_sequenced (w : world) : one_session_at_a_time (A.iteration w).
Proof.
  intros p q H.
  destruct (status_cases w) as [E | E];
    [rewrite (alt_iteration_online w E) in H
    | rewrite (alt_iteration_offline w E) in H;
      destruct (wifi_connect_status w =? 0); simpl in H];
    split_trace H p; trace_facts.
Qed.

Lemma alt_iteration_balanced (w : world) : active (A.iteration w) = 0.
Proof.
  destruct (status_cases w) as [E | E];
    [rewrite (alt_iteration_online w E) | rewrite (alt_iteration_offline w E)];
    [reflexivity|].
  destruct (wifi_connect_status w =? 0); reflexivity.
Qed.

Lemma slept_at_loop_start (ws : list world) :
  slept_until_check (S.main_loop ws)
  = match ws with [] => None | _ :: _ => Some 0 end.
Proof.
  destruct ws as [|w ws]; [reflexivity|].
  unfold S.main_loop. cbn [while_true].
  destruct (status_cases w) as [E | E];
    [rewrite (iteration_online w E) | rewrite (iteration_offline w E)];
    reflexivity.
Qed.

Lemma alt_slept_at_loop_start (ws : list world) :
  slept_until_check (A.main_loop ws)
  = match ws with [] => None | _ :: _ => Some 0 end.
Proof.
  destruct ws as [|w ws]; [reflexivity|].
  unfold A.main_loop. cbn [while_true].
  destruct (status_cases w) as [E | E];
    [rewrite (alt_iteration_online w E) | rewrite (alt_iteration_offline w E)];
    reflexivity.
Qed.

Lemma iteration_head (w : world) :
  exists rest, S.iteration w = EvWget (wget_status w) :: rest.
Proof.
  destruct (status_cases w) as [E | E];
    [rewrite (iteration_online w E) | rewrite (iteration_offline w E)];
    eexists; reflexivity.
Qed.

Lemma alt_iteration_head (w : world) :
  exists rest, A.iteration w = EvWget (wget_status w) :: rest.
Proof.
  destruct (status_cases w) as [E | E];
    [rewrite (alt_iteration_online w E) | rewrite (alt_iteration_offline w E)];
    eexists; reflexivity.
Qed.

Lemma iteration_polls_after_exit : polls_after_exit S.iteration.
Proof.
  intros ws1 w w' ws2 pre c post H.
  destruct (iteration_head w') as [rest' Hw'].
  rewrite while_true_app. cbn [while_true]. rewrite Hw'.
  destruct (status_cases w) as [E | E];
    [rewrite (iteration_online w E) in * | rewrite (iteration_offline w E) in *];
    split_at H pre.
  injection H as <- <-.
  exists [EvSleep 10], (rest' ++ while_true S.iteration ws2).
  split; [|split; reflexivity].
  rewrite <- !app_assoc. reflexivity.
Qed.

Lemma alt_iteration_polls_after_exit : polls_after_exit A.iteration.
Proof.
  intros ws1 w w' ws2 pre c post H.
  destruct (alt_iteration_head w') as [rest' Hw'].
  rewrite while_true_app. cbn [while_true]. rewrite Hw'.
  destruct (status_cases w) as [E | E];
    [rewrite (alt_iteration_online w E) in *
    | rewrite (alt_iteration_offline w E) in *;
      destruct (wifi_connect_status w =? 0); simpl in H];
    split_at H pre; injection H as <- <-.
  - eexists (_ :: [EvSleep 60]), (rest' ++ while_true A.iteration ws2).
    split; [rewrite <- !app_assoc; reflexivity|].
    split; reflexivity.
  - eexists [_], (rest' ++ while_true A.iteration ws2).
    split; [rewrite <- !app_assoc; reflexivity|].
    split; reflexivity.
Qed.

End ScriptFacts.

Module ExpansionFacts.
Import Bash.
Local Open Scope string_scope.

Lemma append_empty_r (s : string) : s ++ "" = s.
Proof. induction s as [|c s IH]; simpl; [reflexivity | now rewrite IH]. Qed.

Lemma append_snoc (cur : string) (c : ascii) (s : string) :
  (cur ++ String c "") ++ s = cur ++ String c s.
Proof. induction cur as [|d cur IH]; simpl; [reflexivity | now rewrite IH]. Qed.

(** Without separators, the output followed by its newline is one field
    (none when it is empty). *)
Lemma split_fields_from_line (s : string) :
  forall cur,
    string_exists is_ifs s = false ->
    split_fields_from cur (s ++ newline) = close_field (cur ++ s).
Proof.
  induction s as [|c s IH]; intros cur H; simpl in *.
  - now rewrite app_nil_r, append_empty_r.
  - apply orb_false_iff in H. destruct H as [Hc Hs].
    rewrite Hc, (IH _ Hs), append_snoc. reflexivity.
Qed.

Lemma expand_unquoted_plain (m : string -> list string) (h : string) :
  plain_word h = true ->
  expand_unquoted m (h ++ newline) = [h].
Proof.
  unfold plain_word. intros H.
  apply andb_true_iff in H. destruct H as [H Hpat].
  apply andb_true_iff in H. destruct H as [Hne Hifs].
  apply negb_true_iff in Hne, Hifs, Hpat.
  unfold expand_unquoted, split_fields.
  rewrite (split_fields_from_line h "" Hifs). simpl.
  destruct h as [|c h]; [discriminate|]. simpl.
  unfold pathname_expand. now rewrite Hpat.
Qed.

End ExpansionFacts.

Module ScriptClaims.
Import Bash TraceFacts ScriptFacts ExpansionFacts Examples.
Local Open Scope Z_scope.
Local Open Scope list_scope.

(** C2.  Whatever the outcomes of the connectivity checks and of the
    sessions, in both versions of the script the loop has at most one
    session running at any point of its trace, starts a session only when
    none is running, and checks connectivity only when none is running
    (each session has exited before the next check). *)
Theorem loop_runs_one_session_at_a_time (ws : list world) :
  one_session_at_a_time (S.main_loop ws)
  /\ one_session_at_a_time (A.main_loop ws).
Proof.
  split.
  - apply while_true_sequenced;
      [exact iteration_sequenced | exact iteration_balanced].
  - apply while_true_sequenced;
      [exact alt_iteration_sequenced | exact alt_iteration_balanced].
Qed.

Lemma loop_runs_one_session_at_a_time_witness :
  0 <= active (firstn 3 (S.main_loop [offline_failing; online])) <= 1.
Proof.
  apply (proj1 (loop_runs_one_session_at_a_time [offline_failing; online])
               (firstn 3 (S.main_loop [offline_failing; online]))
               (skipn 3 (S.main_loop [offline_failing; online]))).
  reflexivity.
Defined.

(** C3.  The check yields Online exactly when wget exits with status 0;
    every other exit status yields Offline. *)
Theorem only_successful_probe_is_online (w : world) :
  is_status (wget_status w) ->
  (S.checkConnectivity w = S.Online <-> wget_status w = 0)
  /\ (wget_status w <> 0 -> S.checkConnectivity w = S.Offline).
Proof.
  intros Hst.
  unfold S.checkConnectivity, S.check_internet, test_eq, return_. simpl.
  rewrite (Z.mod_small _ _ Hst).
  destruct (wget_status w =? 0) eqn:E.
  - apply Z.eqb_eq in E. split; [split; auto | contradiction].
  - apply Z.eqb_neq in E. split; [split; [discriminate | contradiction] | auto].
Qed.

Lemma only_successful_probe_is_online_witness :
  S.checkConnectivity offline_failing = S.Offline
  /\ (S.checkConnectivity online = S.Online <-> wget_status online = 0).
Proof.
  split.
  - apply (only_successful_probe_is_online offline_failing).
    + unfold is_status. simpl. lia.
    + simpl. lia.
  - apply (only_successful_probe_is_online online).
    unfold is_status. simpl. lia.
Defined.

(** C7.  In each pass of the loop, in both versions of the script: when
    the check reports Online no session is started; when it reports
    Offline exactly one session is started, after the check, and it has
    exited before the pass ends.  Every pass begins with its one
    connectivity check, so after a pass the loop polls again. *)
Theorem each_pass_runs_a_session_iff_offline (w : world) :
  let once (tr : list event) :=
    exists pre post,
      tr = pre ++ EvWifiConnectStart (S.wifi_connect_argv w)
               :: EvWifiConnectExit (wifi_connect_status w) :: post
      /\ starts pre = 0%nat /\ exits pre = 0%nat
      /\ starts post = 0%nat /\ exits post = 0%nat /\ checks post = 0%nat in
  (S.checkConnectivity w = S.Online ->
   starts (S.iteration w) = 0%nat /\ starts (A.iteration w) = 0%nat)
  /\ (S.checkConnectivity w = S.Offline ->
      once (S.iteration w) /\ once (A.iteration w))
  /\ (forall ws,
         (exists rest, S.main_loop (w :: ws)
                       = EvWget (wget_status w) :: rest ++ S.main_loop ws
                       /\ checks rest = 0%nat)
         /\ (exists rest, A.main_loop (w :: ws)
                          = EvWget (wget_status w) :: rest ++ A.main_loop ws
                          /\ checks rest = 0%nat)).
Proof.
  intros once. split; [|split].
  - intros E. now rewrite (iteration_online w E), (alt_iteration_online w E).
  - intros E. rewrite (iteration_offline w E), (alt_iteration_offline w E).
    split.
    + exists [EvWget (wget_status w); EvPrintf S.unavailable_msg], [EvSleep 10].
      repeat split.
    + eexists [EvWget (wget_status w); EvPrintf S.unavailable_msg], _.
      split; [reflexivity|].
      destruct (wifi_connect_status w =? 0); repeat split.
  - intros ws. unfold S.main_loop, A.main_loop. cbn [while_true].
    destruct (status_cases w) as [E | E].
    + rewrite (iteration_online w E), (alt_iteration_online w E).
      split; eexists; (split; [reflexivity|reflexivity]).
    + rewrite (iteration_offline w E), (alt_iteration_offline w E).
      split.
      * eexists. split; reflexivity.
      * destruct (wifi_connect_status w =? 0);
          eexists; (split; [reflexivity|reflexivity]).
Qed.

Lemma each_pass_runs_a_session_iff_offline_witness :
  starts (S.iteration online) = 0%nat
  /\ starts (A.iteration online) = 0%nat
  /\ starts (S.iteration offline_failing) = 1%nat
  /\ starts (A.iteration offline_failing) = 1%nat.
Proof.
  destruct (each_pass_runs_a_session_iff_offline online) as [Hon _].
  destruct (each_pass_runs_a_session_iff_offline offline_failing)
    as [_ [Hoff _]].
  destruct (Hon eq_refl) as [H1 H2].
  destruct (Hoff eq_refl)
    as [(pre & post & E & Hpre & _ & Hpost & _)
          (pre' & post' & E' & Hpre' & _ & Hpost' & _)].
  split; [exact H1|]. split; [exact H2|]. split.
  - rewrite E, starts_app. simpl. rewrite Hpre, Hpost. reflexivity.
  - rewrite E', starts_app. simpl. rewrite Hpre', Hpost'. reflexivity.
Defined.

(** C8 (as the code has it).  In [start-wifi-connect.sh] the loop sleeps
    10 seconds between the exit of a session and the next connectivity
    check, whatever the exit status.  In the version with [success] it
    sleeps 60 seconds when the session exited with status 0 and does not
    sleep at all when it exited with another status. *)
Theorem sleep_between_session_and_next_check
        (ws : list world) (p q : list event) (c secs : Z) :
  (S.main_loop ws = p ++ EvWifiConnectExit c :: q ->
   slept_until_check q = Some secs ->
   secs = 10)
  /\ (A.main_loop ws = p ++ EvWifiConnectExit c :: q ->
      slept_until_check q = Some secs ->
      secs = if c =? 0 then 60 else 0).
Proof.
  split; intros H Hs.
  - apply while_true_split in H.
    destruct H as (ws1 & w & ws2 & p' & q' & E1 & E2 & E3 & E4). subst q.
    destruct (status_cases w) as [E | E];
      [rewrite (iteration_online w E) in E2
      | rewrite (iteration_offline w E) in E2];
      split_at E2 p'.
    injection E2 as _ <-. cbn [app slept_until_check] in Hs.
    fold (S.main_loop ws2) in Hs. rewrite slept_at_loop_start in Hs.
    destruct ws2; simpl in Hs; [discriminate|]. injection Hs as <-. reflexivity.
  - apply while_true_split in H.
    destruct H as (ws1 & w & ws2 & p' & q' & E1 & E2 & E3 & E4). subst q.
    destruct (status_cases w) as [E | E];
      [rewrite (alt_iteration_online w E) in E2
      | rewrite (alt_iteration_offline w E) in E2;
        destruct (wifi_connect_status w =? 0) eqn:Ec; simpl in E2];
      split_at E2 p';
      injection E2 as <- <-; rewrite Ec;
      cbn [app slept_until_check] in Hs;
      fold (A.main_loop ws2) in Hs; rewrite alt_slept_at_loop_start in Hs;
      (destruct ws2; simpl in Hs; [discriminate|]); injection Hs as <-;
      reflexivity.
Qed.

Lemma sleep_between_session_and_next_check_witness :
  let ws := [offline_failing; online] in
  (S.main_loop ws
   = firstn 3 (S.main_loop ws)
       ++ EvWifiConnectExit 1 :: skipn 4 (S.main_loop ws)
   /\ slept_until_check (skipn 4 (S.main_loop ws)) = Some 10
   /\ 10 = 10)
  /\ (A.main_loop ws
      = firstn 3 (A.main_loop ws)
          ++ EvWifiConnectExit 1 :: skipn 4 (A.main_loop ws)
      /\ slept_until_check (skipn 4 (A.main_loop ws)) = Some 0
      /\ 0 = if 1 =? 0 then 60 else 0).
Proof.
  intros ws. split.
  - split; [reflexivity|]. split; [reflexivity|].
    apply (proj1 (sleep_between_session_and_next_check
                    ws (firstn 3 (S.main_loop ws)) (skipn 4 (S.main_loop ws))
                    1 10)); reflexivity.
  - split; [reflexivity|]. split; [reflexivity|].
    apply (proj2 (sleep_between_session_and_next_check
                    ws (firstn 3 (A.main_loop ws)) (skipn 4 (A.main_loop ws))
                    1 0)); reflexivity.
Defined.

(** C8, as stated, fails for the version with [success]: after a session
    that exits with status 1 the next connectivity check follows without
    any sleep. *)
Lemma no_backoff_after_failed_session :
  A.main_loop [offline_failing; online]
  = [EvWget 4; EvPrintf S.unavailable_msg;
     EvWifiConnectStart ["./wifi-connect"; "--portal-ssid"; "gaitq-data-hub-01"]%string]
    ++ EvWifiConnectExit 1
    :: [EvEcho "wifi-connect exited with code: 1";
        EvWget 0; EvPrintf S.available_msg; EvSleep 60]
  /\ slept_until_check
       [EvEcho "wifi-connect exited with code: 1";
        EvWget 0; EvPrintf S.available_msg; EvSleep 60] = Some 0.
Proof. split; reflexivity. Qed.

(** C9.  In both versions of the script, every start of [wifi-connect]
    has the arguments [--portal-ssid] followed by the expansion of the
    output of [hostname] in the pass that starts it; nothing else enters
    the command line.  When that output is a plain word followed by a
    newline, the portal ssid is that word. *)
Theorem portal_ssid_is_hostname (ws : list world) (argv : list string) :
  In (EvWifiConnectStart argv) (S.main_loop ws)
  \/ In (EvWifiConnectStart argv) (A.main_loop ws) ->
  exists w,
    In w ws
    /\ argv = ("./wifi-connect" :: "--portal-ssid"
                 :: expand_unquoted (matches w) (hostname_stdout w))%string
    /\ (forall h,
           plain_word h = true ->
           hostname_stdout w = (h ++ newline)%string ->
           argv = ["./wifi-connect"; "--portal-ssid"; h]%string).
Proof.
  intros H.
  assert (Hw : exists w, In w ws /\ argv = S.wifi_connect_argv w).
  { destruct H as [H | H]; apply in_while_true in H;
      destruct H as [w [Hin H]]; exists w; (split; [assumption|]);
      destruct (status_cases w) as [E | E].
    - rewrite (iteration_online w E) in H. simpl in H.
      repeat (destruct H as [H | H]; [discriminate|]). contradiction.
    - rewrite (iteration_offline w E) in H. simpl in H.
      repeat (destruct H as [H | H]; [try discriminate; now injection H|]).
      contradiction.
    - rewrite (alt_iteration_online w E) in H. simpl in H.
      repeat (destruct H as [H | H]; [discriminate|]). contradiction.
    - rewrite (alt_iteration_offline w E) in H. simpl in H.
      repeat (destruct H as [H | H]; [try discriminate; now injection H|]).
      destruct (wifi_connect_status w =? 0); simpl in H.
      + destruct H as [H | []]. discriminate.
      + contradiction. }
  destruct Hw as [w [Hin ->]]. exists w. split; [assumption|].
  split; [reflexivity|].
  intros h Hplain Hout. unfold S.wifi_connect_argv.
  now rewrite Hout, expand_unquoted_plain.
Qed.

Lemma portal_ssid_is_hostname_witness :
  exists w,
    In w [offline_failing]
    /\ ["./wifi-connect"; "--portal-ssid"; "gaitq-data-hub-01"]%string
       = ("./wifi-connect" :: "--portal-ssid"
            :: expand_unquoted (matches w) (hostname_stdout w))%string
    /\ (forall h,
           plain_word h = true ->
           hostname_stdout w = (h ++ newline)%string ->
           ["./wifi-connect"; "--portal-ssid"; "gaitq-data-hub-01"]%string
           = ["./wifi-connect"; "--portal-ssid"; h]%string).
Proof.
  apply (portal_ssid_is_hostname [offline_failing]).
  left. vm_compute. right. right. left. reflexivity.
Defined.

End ScriptClaims.

(* ===================================================================== *)
(** * Properties of the provisioning session *)
(* ===================================================================== *)

Module SessionFacts.
Import PortalSession.
Local Open Scope nat_scope.

Section Facts.

Variable sessionTimeout : nat.

Local Abbreviation step := (PortalSession.step sessionTimeout).
Local Abbreviation run := (PortalSession.run sessionTimeout).

Lemma step_finished (s : PortalSession) (i : input) :
  finished s = true -> step s i = s.
Proof. unfold PortalSession.step. now intros ->. Qed.

Lemma run_finished (inputs : list input) :
  forall s, finished s = true -> run s inputs = s.
Proof.
  induction inputs as [|i inputs IH]; intros s H; simpl; [reflexivity|].
  rewrite (step_finished s i H). now apply IH.
Qed.

Lemma run_app (a b : list input) (s : PortalSession) :
  run s (a ++ b) = run (run s a) b.
Proof. apply fold_left_app. Qed.

Lemma resources_ok_start (now : nat) : resources_ok (start now).
Proof. exact I. Qed.

Lemma resources_ok_step (s : PortalSession) (i : input) :
  resources_ok s -> resources_ok (step s i).
Proof.
  unfold resources_ok, PortalSession.step, finished.
  destruct s as [st t0 err ap web]; simpl.
  destruct st, i; simpl; auto;
    destruct (t0 + sessionTimeout <=? now); simpl; auto.
Qed.

Lemma resources_ok_run (inputs : list input) :
  forall s, resources_ok s -> resources_ok (run s inputs).
Proof.
  induction inputs as [|i inputs IH]; intros s H; simpl; [assumption|].
  apply IH. now apply resources_ok_step.
Qed.

Lemma idle_step (t0 : nat) (s : PortalSession) (i : input) :
  is_submit i = false -> idle t0 s -> idle t0 (step s i).
Proof.
  unfold idle, PortalSession.step, finished.
  destruct s as [st t err ap web]; simpl.
  intros Hi (Ht & Ha & Hs).
  destruct st, i; simpl; try discriminate Hi; try (repeat split; congruence);
    destruct (t + sessionTimeout <=? now); simpl; repeat split; congruence.
Qed.

Lemma idle_run (t0 : nat) (inputs : list input) :
  forall s,
    forallb (fun i => negb (is_submit i)) inputs = true ->
    idle t0 s -> idle t0 (run s inputs).
Proof.
  induction inputs as [|i inputs IH]; intros s H Hs; simpl in *; [assumption|].
  apply andb_true_iff in H. destruct H as [Hi H].
  apply negb_true_iff in Hi. apply IH; [assumption|].
  now apply idle_step.
Qed.

(** A clock reading at or past the deadline ends the session. *)
Lemma step_deadline (s : PortalSession) (i : input) :
  reaches (startedAt s + sessionTimeout) i = true ->
  finished (step s i) = true.
Proof.
  unfold PortalSession.step. destruct (finished s) eqn:F; [now rewrite F|].
  destruct i; simpl; try discriminate.
  intros ->. reflexivity.
Qed.

Lemma run_deadline (t0 : nat) (inputs : list input) :
  forall s,
    forallb (fun i => negb (is_submit i)) inputs = true ->
    existsb (reaches (t0 + sessionTimeout)) inputs = true ->
    idle t0 s ->
    finished (run s inputs) = true.
Proof.
  induction inputs as [|i inputs IH]; intros s Hn Hr Hs; simpl in *;
    [discriminate|].
  apply andb_true_iff in Hn. destruct Hn as [Hi Hn].
  apply negb_true_iff in Hi.
  apply orb_true_iff in Hr. destruct Hr as [Hr | Hr].
  - destruct Hs as [Ht _]. rewrite <- Ht in Hr.
    rewrite run_finished; now apply step_deadline.
  - apply IH; auto. now apply idle_step.
Qed.

Lemma timed_out_step (t0 : nat) (s : PortalSession) (i : input) :
  is_submit i = false -> is_fatal i = false ->
  idle t0 s -> timed_out_if_over s -> timed_out_if_over (step s i).
Proof.
  unfold idle, timed_out_if_over, PortalSession.step, finished.
  destruct s as [st t err ap web]; simpl.
  intros Hi Hf (Ht & Ha & Hs) Hover.
  destruct st, i; simpl; try discriminate Hi; try discriminate Hf;
    try congruence; auto;
    destruct (t + sessionTimeout <=? now); simpl; congruence.
Qed.

Lemma timed_out_run (t0 : nat) (inputs : list input) :
  forall s,
    forallb (fun i => negb (is_submit i)) inputs = true ->
    forallb (fun i => negb (is_fatal i)) inputs = true ->
    idle t0 s -> timed_out_if_over s -> timed_out_if_over (run s inputs).
Proof.
  induction inputs as [|i inputs IH]; intros s Hn Hf Hs Ho; simpl in *;
    [assumption|].
  apply andb_true_iff in Hn. destruct Hn as [Hi Hn].
  apply andb_true_iff in Hf. destruct Hf as [Hfi Hf].
  apply negb_true_iff in Hi, Hfi.
  apply IH; auto; [now apply idle_step | now apply (timed_out_step t0)].
Qed.

End Facts.

End SessionFacts.

Module SessionClaims.
Import PortalSession SessionFacts Bash Examples.
Local Open Scope nat_scope.

(** C4.  When a join attempt fails in a session that has reached
    [Applying], the session is not over and signals nothing to the loop;
    access point and web server are still up; the error is kept; the
    session is back in [Scanning], from where, once the networks are
    listed, a new submission is accepted. *)
Theorem failed_join_keeps_session_open
        (sessionTimeout t0 : nat) (inputs : list input) (e : JoinError) :
  let s := run sessionTimeout (start t0) inputs in
  let s' := step sessionTimeout s (JoinFailed e) in
  state s = Applying ->
  finished s' = false
  /\ completion s' = None
  /\ accessPointUp s' = true
  /\ webServerUp s' = true
  /\ lastError s' = Some (join_error_name e)
  /\ state s' = Scanning
  /\ forall networks c,
      accepts_submission (step sessionTimeout s' (ScanCompleted networks)) = true
      /\ state (run sessionTimeout s' [ScanCompleted networks; Submit c])
         = Applying.
Proof.
  intros s s' Hs.
  assert (Hres : resources_ok s)
    by (apply resources_ok_run, resources_ok_start).
  unfold resources_ok in Hres. rewrite Hs in Hres. destruct Hres as [Hap Hweb].
  subst s'. unfold step, completion, finished. rewrite Hs. simpl.
  repeat split; assumption.
Qed.

Lemma failed_join_keeps_session_open_witness :
  let s' := step 300 (run 300 (start 0) until_first_attempt)
                 (JoinFailed JoinCredentialInvalid) in
  finished s' = false
  /\ completion s' = None
  /\ accessPointUp s' = true
  /\ webServerUp s' = true
  /\ lastError s' = Some "JoinCredentialInvalid"%string
  /\ state s' = Scanning
  /\ forall networks c,
      accepts_submission (step 300 s' (ScanCompleted networks)) = true
      /\ state (run 300 s' [ScanCompleted networks; Submit c]) = Applying.
Proof.
  apply (failed_join_keeps_session_open 300 0 until_first_attempt
                                        JoinCredentialInvalid).
  reflexivity.
Defined.

(** C5.  In a session that receives no submission, once the clock
    reaches the session timeout the session is over: it has failed and
    signals so to the loop, and access point and web server are down; if
    no fatal failure occurred either, it is the timeout that ended it.
    In both versions of the script, after the exit of a session the loop
    goes on to the next connectivity check. *)
Theorem session_without_submission_times_out
        (sessionTimeout t0 : nat) (inputs : list input) :
  forallb (fun i => negb (is_submit i)) inputs = true ->
  existsb (reaches (t0 + sessionTimeout)) inputs = true ->
  let s := run sessionTimeout (start t0) inputs in
  state s = Failed
  /\ completion s = Some Failed
  /\ accessPointUp s = false
  /\ webServerUp s = false
  /\ (forallb (fun i => negb (is_fatal i)) inputs = true ->
      lastError s = Some "no input received"%string)
  /\ polls_after_exit StartWifiConnect.iteration
  /\ polls_after_exit StartWifiConnectAlt.iteration.
Proof.
  intros Hn Hr s.
  assert (Hidle0 : idle t0 (start t0))
    by (repeat split; discriminate).
  assert (Hfin : finished s = true)
    by (apply (run_deadline sessionTimeout t0); assumption).
  assert (Hidle : idle t0 s)
    by (apply idle_run; assumption).
  assert (Hres : resources_ok s)
    by (apply resources_ok_run, resources_ok_start).
  assert (Hst : state s = Failed).
  { destruct Hidle as (_ & _ & Hsucc). unfold finished in Hfin.
    destruct (state s); try discriminate; congruence. }
  unfold resources_ok in Hres. rewrite Hst in Hres.
  destruct Hres as [Hap Hweb].
  repeat split; try assumption.
  - unfold completion. now rewrite Hfin, Hst.
  - intros Hf.
    apply (timed_out_run sessionTimeout t0 inputs (start t0)); try assumption.
    intros F. discriminate F.
  - apply ScriptFacts.iteration_polls_after_exit.
  - apply ScriptFacts.alt_iteration_polls_after_exit.
Qed.

Lemma session_without_submission_times_out_witness :
  let s := run 300 (start 0) nobody_submits in
  state s = Failed
  /\ completion s = Some Failed
  /\ accessPointUp s = false
  /\ webServerUp s = false
  /\ (forallb (fun i => negb (is_fatal i)) nobody_submits = true ->
      lastError s = Some "no input received"%string)
  /\ polls_after_exit StartWifiConnect.iteration
  /\ polls_after_exit StartWifiConnectAlt.iteration.
Proof.
  apply (session_without_submission_times_out 300 0 nobody_submits);
    reflexivity.
Defined.

End SessionClaims.

(* ===================================================================== *)
(** * Further properties of the form *)
(* ===================================================================== *)

Module FormMore.
Import Json JsonSchema NetworkInfoForm FormFacts Examples.
Local Open Scope list_scope.

Lemma listed_app (a b : list Network) (s : string) :
  listed (a ++ b) s = listed a s + listed b s.
Proof. unfold listed. now rewrite filter_app, length_app. Qed.

Lemma listed_cons (n : Network) (nets : list Network) (s : string) :
  listed (n :: nets) s
  = (if String.eqb (ssid n) s then 1 else 0) + listed nets s.
Proof. unfold listed. simpl. destruct (String.eqb (ssid n) s); reflexivity. Qed.

Lemma listed_absent (nets : list Network) (s : string) :
  ~ In s (map ssid nets) -> listed nets s = 0.
Proof.
  intros H. destruct (Nat.eq_dec (listed nets s) 0) as [E | E]; [assumption|].
  destruct (listed_pos_In nets s E) as [n [Hin <-]].
  exfalso. apply H. now apply in_map.
Qed.

Lemma listed_present (nets : list Network) (n : Network) :
  In n nets -> 1 <= listed nets (ssid n).
Proof.
  induction nets as [|m nets IH]; simpl; [contradiction|].
  rewrite listed_cons. intros [-> | H].
  - rewrite String.eqb_refl. lia.
  - specialize (IH H). lia.
Qed.


Lemma unique_ssid_same_network (nets : list Network) (n m : Network) :
  NoDup (map ssid nets) -> In n nets -> In m nets -> ssid n = ssid m -> n = m.
Proof.
  induction nets as [|x nets IH]; simpl; [contradiction|].
  intros Hnd Hn Hm E. inversion Hnd as [|y l Hnotin Hnd']; subst.
  destruct Hn as [-> | Hn], Hm as [-> | Hm]; auto.
  - exfalso. apply Hnotin. rewrite E. now apply in_map.
  - exfalso. apply Hnotin. rewrite <- E. now apply in_map.
Qed.





(** X2.  When two entries of the list carry the same ssid, a submission
    with that ssid never goes through, whatever else it holds: the
    [oneOf] of the ssid schema has two alternatives that match. *)
Theorem duplicate_ssid_cannot_be_submitted
        (a b c : list Network) (n1 n2 : Network) (d : NetworkInfo) :
  ssid n1 = ssid n2 ->
  info_ssid d = Some (ssid n1) ->
  formValid (a ++ n1 :: b ++ n2 :: c) d = false
  /\ onFormSubmit (a ++ n1 :: b ++ n2 :: c) d = None.
Proof.
  intros E Hd.
  assert (H2 : 2 <= listed (a ++ n1 :: b ++ n2 :: c) (ssid n1)).
  { rewrite listed_app, listed_cons, listed_app, listed_cons, <- E.
    rewrite String.eqb_refl. lia. }
  assert (Hne : Nat.eqb (listed (a ++ n1 :: b ++ n2 :: c) (ssid n1)) 1 = false)
    by (apply Nat.eqb_neq; lia).
  rewrite formValid_spec, onFormSubmit_spec, Hd, Hne. split; reflexivity.
Qed.

Lemma duplicate_ssid_cannot_be_submitted_witness :
  formValid [campus_open; campus_enterprise] (only_ssid "Campus") = false
  /\ onFormSubmit [campus_open; campus_enterprise] (only_ssid "Campus") = None.
Proof.
  apply (duplicate_ssid_cannot_be_submitted
           [] [] [] campus_open campus_enterprise (only_ssid "Campus"));
    reflexivity.
Defined.

(** X3.  The default of the ssid field is the ssid of the first listed
    network, and this default is itself a valid choice exactly when no
    later entry of the list carries the same ssid. *)
Theorem default_ssid_valid_iff_not_repeated (n : Network) (rest : list Network) :
  exists sub others,
    properties (getSchema (n :: rest)) = ("ssid", sub) :: others
    /\ default sub = Some (JStr (ssid n))
    /\ (validate sub (JStr (ssid n)) = true <-> ~ In (ssid n) (map ssid rest)).
Proof.
  eexists. eexists. split; [reflexivity|]. split; [reflexivity|].
  rewrite validate_ssid_schema, listed_cons, String.eqb_refl.
  rewrite Nat.eqb_eq. split.
  - intros H Hin. apply in_map_iff in Hin. destruct Hin as [m [Hm Hin]].
    pose proof (listed_present rest m Hin) as Hp. rewrite Hm in Hp. lia.
  - intros H. now rewrite (listed_absent rest (ssid n) H).
Qed.



(** X5.  The submit button is drawn dimmed (opacity 0.6) exactly when it
    is disabled, and that is exactly when no network is listed. *)
Theorem submit_button_dimmed_iff_disabled (nets : list Network) :
  (submitOpacity nets = "0.6" <-> submitDisabled nets = true)
  /\ (submitOpacity nets = "1" <-> submitDisabled nets = false)
  /\ (submitDisabled nets = true <-> nets = []).
Proof.
  unfold submitOpacity, submitDisabled.
  destruct nets as [|n nets]; simpl; repeat split; intros; congruence.
Qed.


(** X7.  When the listed networks have pairwise different names and the
    selected ssid is that of the listed network [n], the identity field
    is shown exactly when [n] itself has security 'enterprise'. *)
Theorem unique_names_identity_field_follows_selection
        (nets : list Network) (n : Network) (d : NetworkInfo) :
  NoDup (map ssid nets) ->
  In n nets ->
  info_ssid d = Some (ssid n) ->
  (identityFieldShown (formUiSchema nets d) = true
   <-> security n = "enterprise").
Proof.
  intros Hnd Hin Hd.
  unfold formUiSchema. rewrite identityFieldShown_getUiSchema.
  rewrite isEnterpriseNetwork_spec. split.
  - intros [m [Hm [Hs He]]]. rewrite Hd in Hs. injection Hs as Hs.
    now rewrite (unique_ssid_same_network nets n m Hnd Hin Hm Hs).
  - intros He. exists n. auto.
Qed.

Lemma unique_names_identity_field_follows_selection_witness :
  identityFieldShown (formUiSchema [corp; home] (only_ssid "Corp")) = true
  <-> security corp = "enterprise".
Proof.
  apply (unique_names_identity_field_follows_selection
           [corp; home] corp (only_ssid "Corp")).
  - repeat constructor; simpl; intuition discriminate.
  - left. reflexivity.
  - reflexivity.
Defined.

End FormMore.

(* ===================================================================== *)
(** * Properties of the notices *)
(* ===================================================================== *)

Module NotificationsFacts.
Import Notifications Examples.
Local Open Scope list_scope.

Lemma truthy_false (s : string) : truthy s = false <-> s = "".
Proof.
  unfold truthy. rewrite negb_false_iff. apply String.eqb_eq.
Qed.

Lemma truthy_true (s : string) : truthy s = true <-> s <> "".
Proof.
  unfold truthy. rewrite negb_true_iff. apply String.eqb_neq.
Qed.

(** X8.  Both versions of the component show nothing at all exactly when
    networks are available, no connection was attempted, no reload is
    under way and the error is the empty string. *)
Theorem no_notice_iff_nothing_to_report (p : props) :
  (Notifications p = []
   <-> attemptedConnect p = false /\ RestartingApp p = false
       /\ hasAvailableNetworks p = true /\ error p = "")
  /\ (NotificationsDataHub p = []
      <-> attemptedConnect p = false /\ RestartingApp p = false
          /\ hasAvailableNetworks p = true /\ error p = "").
Proof.
  unfold Notifications, NotificationsDataHub.
  rewrite <- (truthy_false (error p)).
  destruct (attemptedConnect p), (RestartingApp p), (hasAvailableNetworks p),
    (truthy (error p)); cbn [when negb app];
    (split;
     (split;
      [ intros H; try discriminate H; auto
      | intros (H1 & H2 & H3 & H4); try discriminate; reflexivity ])).
Qed.

(** X9.  For the same props the two versions show the same notices in
    the same order, with the same levels but for the error notice, which
    is [danger] in the first version and [warning] in the second; the
    second version never shows a [danger] notice, the first shows one
    exactly when the error is not empty. *)
Theorem versions_show_same_notices (p : props) :
  map alert_level (NotificationsDataHub p)
  = map (fun a => softened (alert_level a)) (Notifications p)
  /\ List.length (NotificationsDataHub p) = List.length (Notifications p)
  /\ count_level danger (NotificationsDataHub p) = 0
  /\ count_level danger (Notifications p)
     = (if truthy (error p) then 1 else 0).
Proof.
  unfold Notifications, NotificationsDataHub, count_level.
  destruct (attemptedConnect p), (RestartingApp p), (hasAvailableNetworks p),
    (truthy (error p));
    cbn [when negb app map filter alert_level level_eqb softened List.length];
    repeat split; reflexivity.
Qed.

(** X10.  An error that is not the empty string is shown verbatim in
    both versions: it is the whole text of the last notice in the first
    version, of level [danger], and the beginning of the last notice in
    the second, of level [warning]. *)
Theorem error_shown_last_and_verbatim (p : props) :
  error p <> "" ->
  exists front a front' a',
    Notifications p = front ++ [a]
    /\ alert_level a = danger
    /\ pieces a = [Text (error p)]
    /\ NotificationsDataHub p = front' ++ [a']
    /\ alert_level a' = warning
    /\ hd_error (pieces a') = Some (Text (error p)).
Proof.
  intros H. apply truthy_true in H.
  unfold Notifications, NotificationsDataHub. rewrite H.
  cbn [when]. rewrite !app_assoc.
  do 4 eexists.
  split; [reflexivity|]. split; [reflexivity|]. split; [reflexivity|].
  split; [reflexivity|]. split; reflexivity.
Qed.

Lemma error_shown_last_and_verbatim_witness :
  exists front a front' a',
    Notifications join_failed_notice = front ++ [a]
    /\ alert_level a = danger
    /\ pieces a = [Text (error join_failed_notice)]
    /\ NotificationsDataHub join_failed_notice = front' ++ [a']
    /\ alert_level a' = warning
    /\ hd_error (pieces a') = Some (Text (error join_failed_notice)).
Proof.
  apply (error_shown_last_and_verbatim join_failed_notice).
  discriminate.
Defined.

End NotificationsFacts.

(* ===================================================================== *)
(** * Further properties of the start script *)
(* ===================================================================== *)

Module ScriptMore.
Import Bash TraceFacts ScriptFacts ExpansionFacts Examples.
Local Open Scope Z_scope.
Local Open Scope list_scope.

Lemma checks_app (a b : list event) : checks (a ++ b) = (checks a + checks b)%nat.
Proof. induction a as [|[] a IH]; simpl; auto. Qed.

Lemma total_sleep_app (a b : list event) :
  total_sleep (a ++ b) = total_sleep a + total_sleep b.
Proof. induction a as [|[] a IH]; simpl; auto. rewrite IH. lia. Qed.

Lemma without_sleep_and_echo_app (a b : list event) :
  without_sleep_and_echo (a ++ b)
  = without_sleep_and_echo a ++ without_sleep_and_echo b.
Proof. induction a as [|[] a IH]; simpl; auto; now rewrite IH. Qed.

Lemma is_offline_cases (w : world) :
  (S.checkConnectivity w = S.Online /\ S.is_offline w = false)
  \/ (S.checkConnectivity w = S.Offline /\ S.is_offline w = true).
Proof. unfold S.is_offline. destruct (S.checkConnectivity w); auto. Qed.

(** Rewrites a pass into its events, by cases on the check and, for the
    version with [success], on the status of the session. *)
Ltac by_pass w :=
  destruct (is_offline_cases w) as [[?E ?O] | [?E ?O]];
  [ rewrite ?(iteration_online w E), ?(alt_iteration_online w E)
  | rewrite ?(iteration_offline w E), ?(alt_iteration_offline w E) ];
  rewrite ?O.

(** X11.  In both versions of the script the loop checks connectivity
    exactly once per pass. *)
Theorem one_check_per_pass (ws : list world) :
  checks (S.main_loop ws) = List.length ws
  /\ checks (A.main_loop ws) = List.length ws.
Proof.
  unfold S.main_loop, A.main_loop.
  induction ws as [|w ws [IH1 IH2]]; [split; reflexivity|].
  cbn [while_true List.length]. rewrite !checks_app, IH1, IH2.
  by_pass w; split; try reflexivity;
    destruct (wifi_connect_status w =? 0); reflexivity.
Qed.

(** X12.  In both versions of the script the number of sessions started,
    and the number of sessions that have exited, is the number of passes
    whose check failed. *)
Theorem one_session_per_offline_pass (ws : list world) :
  starts (S.main_loop ws) = List.length (filter S.is_offline ws)
  /\ exits (S.main_loop ws) = List.length (filter S.is_offline ws)
  /\ starts (A.main_loop ws) = List.length (filter S.is_offline ws)
  /\ exits (A.main_loop ws) = List.length (filter S.is_offline ws).
Proof.
  unfold S.main_loop, A.main_loop.
  induction ws as [|w ws (IH1 & IH2 & IH3 & IH4)]; [repeat split|].
  cbn [while_true filter]. rewrite !starts_app, !exits_app, IH1, IH2, IH3, IH4.
  by_pass w; repeat split; try reflexivity;
    destruct (wifi_connect_status w =? 0); reflexivity.
Qed.

(** X13.  [start-wifi-connect.sh] sleeps 10 seconds in every pass.  The
    version with [success] sleeps 60 seconds in the passes whose check
    succeeded or whose session exited with status 0, and not at all in
    the others. *)
Theorem seconds_slept (ws : list world) :
  total_sleep (S.main_loop ws) = 10 * Z.of_nat (List.length ws)
  /\ total_sleep (A.main_loop ws)
     = 60 * Z.of_nat
              (List.length
                 (filter (fun w => negb (S.is_offline w)
                                   || (wifi_connect_status w =? 0))%bool ws)).
Proof.
  unfold S.main_loop, A.main_loop.
  induction ws as [|w ws [IH1 IH2]]; [split; reflexivity|].
  cbn [while_true filter List.length]. rewrite !total_sleep_app, IH1, IH2.
  by_pass w; destruct (wifi_connect_status w =? 0);
    cbn [negb orb app total_sleep List.length];
    rewrite ?Nat2Z.inj_succ; split; lia.
Qed.

(** X14.  In the version with [success], as long as every check fails
    and every session exits with a status other than 0, the loop never
    sleeps: it checks and starts a session in every pass, one right
    after the other. *)
Theorem alt_never_sleeps_while_sessions_fail (ws : list world) :
  (forall w, In w ws -> S.is_offline w = true /\ wifi_connect_status w <> 0) ->
  total_sleep (A.main_loop ws) = 0
  /\ starts (A.main_loop ws) = List.length ws
  /\ checks (A.main_loop ws) = List.length ws.
Proof.
  unfold A.main_loop.
  induction ws as [|w ws IH]; intros H; [repeat split|].
  destruct (H w (or_introl eq_refl)) as [Ho Hc].
  destruct IH as (IH1 & IH2 & IH3); [intros w' Hin; apply H; now right|].
  cbn [while_true List.length].
  rewrite total_sleep_app, starts_app, checks_app, IH1, IH2, IH3.
  unfold S.is_offline in Ho.
  destruct (S.checkConnectivity w) eqn:E; [discriminate|].
  rewrite (alt_iteration_offline w E).
  apply Z.eqb_neq in Hc. rewrite Hc. repeat split.
Qed.

Lemma alt_never_sleeps_while_sessions_fail_witness :
  total_sleep (A.main_loop [offline_failing; offline_failing]) = 0
  /\ starts (A.main_loop [offline_failing; offline_failing]) = 2%nat
  /\ checks (A.main_loop [offline_failing; offline_failing]) = 2%nat.
Proof.
  apply (alt_never_sleeps_while_sessions_fail [offline_failing; offline_failing]).
  intros w [<- | [<- | []]]; split; (reflexivity || discriminate).
Defined.

(** X15.  The two versions of the script differ in their pauses and in
    the [echo] of the exit status only: they check connectivity, print
    their messages and start and await sessions alike. *)
Theorem versions_differ_in_sleep_and_echo_only (ws : list world) :
  without_sleep_and_echo (S.main_loop ws)
  = without_sleep_and_echo (A.main_loop ws).
Proof.
  unfold S.main_loop, A.main_loop.
  induction ws as [|w ws IH]; [reflexivity|].
  cbn [while_true]. rewrite !without_sleep_and_echo_app, IH. f_equal.
  by_pass w; try reflexivity.
  destruct (wifi_connect_status w =? 0); reflexivity.
Qed.

(** X16.  [start-wifi-connect.sh] never echoes anything; in the version
    with [success] the exit of every session is followed at once by the
    echo of its exit status in decimal. *)
Theorem exit_status_echoed (ws : list world) :
  (forall text, ~ In (EvEcho text) (S.main_loop ws))
  /\ (forall p c q,
         A.main_loop ws = p ++ EvWifiConnectExit c :: q ->
         exists q',
           q = EvEcho ("wifi-connect exited with code: " ++ decimal c)%string
                 :: q').
Proof.
  split.
  - intros text H. apply in_while_true in H. destruct H as [w [_ H]].
    revert H. by_pass w; simpl; intuition discriminate.
  - intros p c q H. apply while_true_split in H.
    destruct H as (ws1 & w & ws2 & p' & q' & E1 & E2 & E3 & E4). subst q.
    destruct (status_cases w) as [E | E];
      [rewrite (alt_iteration_online w E) in E2
      | rewrite (alt_iteration_offline w E) in E2;
        destruct (wifi_connect_status w =? 0); simpl in E2];
      split_at E2 p'; injection E2 as <- <-; eexists; reflexivity.
Qed.

Lemma exit_status_echoed_witness :
  exists q',
    skipn 4 (A.main_loop [offline_failing; online])
    = EvEcho ("wifi-connect exited with code: " ++ decimal 1)%string :: q'.
Proof.
  apply (proj2 (exit_status_echoed [offline_failing; online])
               (firstn 3 (A.main_loop [offline_failing; online])) 1).
  reflexivity.
Defined.

End ScriptMore.

Module ArgvFacts.
Import Bash ExpansionFacts Examples.
Local Open Scope string_scope.

Module S := StartWifiConnect.

Lemma string_exists_app (p : ascii -> bool) (a b : string) :
  string_exists p (a ++ b) = (string_exists p a || string_exists p b)%bool.
Proof.
  induction a as [|c a IH]; simpl; [reflexivity|].
  now rewrite IH, orb_assoc.
Qed.

Lemma snoc_not_empty (cur : string) (c : ascii) : cur ++ String c "" <> "".
Proof. destruct cur; discriminate. Qed.

Lemma close_field_fields (cur : string) :
  string_exists is_ifs cur = false ->
  Forall (fun f => f <> "" /\ string_exists is_ifs f = false) (close_field cur).
Proof.
  intros H. destruct cur; simpl; constructor; [|constructor].
  split; [discriminate | assumption].
Qed.

(** Fields are not empty and hold no separator. *)
Lemma split_fields_from_fields (s : string) :
  forall cur,
    string_exists is_ifs cur = false ->
    Forall (fun f => f <> "" /\ string_exists is_ifs f = false)
           (split_fields_from cur s).
Proof.
  induction s as [|c s IH]; intros cur H; simpl.
  - now apply close_field_fields.
  - destruct (is_ifs c) eqn:E.
    + apply Forall_app. split; [now apply close_field_fields | now apply IH].
    + apply IH. rewrite string_exists_app, H. simpl. now rewrite E.
Qed.

(** Fields hold no character that the output does not hold. *)
Lemma split_fields_from_chars (p : ascii -> bool) (s : string) :
  forall cur,
    string_exists p cur = false ->
    string_exists p s = false ->
    Forall (fun f => string_exists p f = false) (split_fields_from cur s).
Proof.
  induction s as [|c s IH]; intros cur Hc Hs; simpl in *.
  - destruct cur; simpl; repeat constructor. assumption.
  - apply orb_false_iff in Hs. destruct Hs as [Hpc Hs].
    destruct (is_ifs c).
    + apply Forall_app. split; [|now apply IH].
      destruct cur; simpl; repeat constructor. assumption.
    + apply IH; [|assumption].
      rewrite string_exists_app, Hc. simpl. now rewrite Hpc.
Qed.

(** There is no field exactly when nothing but separators was read. *)
Lemma split_fields_from_nil (s : string) :
  forall cur,
    split_fields_from cur s = []
    <-> cur = "" /\ string_exists (fun c => negb (is_ifs c)) s = false.
Proof.
  induction s as [|c s IH]; intros cur; simpl.
  - destruct cur; simpl; split; intros H; auto; try discriminate.
    destruct H; discriminate.
  - destruct (is_ifs c) eqn:E; simpl.
    + split.
      * intros H. apply app_eq_nil in H. destruct H as [Hc Hr].
        apply IH in Hr. destruct cur; [|discriminate]. tauto.
      * intros [-> H]. simpl. apply IH. auto.
    + rewrite IH. split.
      * intros [H _]. exfalso. exact (snoc_not_empty cur c H).
      * intros [_ H]. discriminate.
Qed.

Lemma pathname_expand_not_nil (m : string -> list string) (w : string) :
  pathname_expand m w <> [].
Proof.
  unfold pathname_expand.
  destruct (string_exists is_pattern_char w); [|discriminate].
  destruct (m w); discriminate.
Qed.

Lemma expand_unquoted_nil (m : string -> list string) (s : string) :
  expand_unquoted m s = [] <-> split_fields s = [].
Proof.
  unfold expand_unquoted.
  destruct (split_fields s) as [|f fs]; simpl; [tauto|].
  split; [|discriminate].
  intros H. apply app_eq_nil in H. destruct H as [H _].
  exfalso. exact (pathname_expand_not_nil m f H).
Qed.

Lemma expand_unquoted_no_pattern (m : string -> list string) (s : string) :
  string_exists is_pattern_char s = false ->
  expand_unquoted m s = split_fields s.
Proof.
  intros H. unfold expand_unquoted, split_fields.
  pose proof (split_fields_from_chars is_pattern_char s "" eq_refl H) as F.
  induction F as [|f fs Hf _ IH]; simpl; [reflexivity|].
  unfold pathname_expand at 1. now rewrite Hf, IH.
Qed.

(** A field, a separator, and what follows. *)
Lemma split_fields_from_sep (a : string) (sep : ascii) (rest : string) :
  forall cur,
    string_exists is_ifs a = false ->
    is_ifs sep = true ->
    split_fields_from cur (a ++ String sep rest)
    = (close_field (cur ++ a) ++ split_fields rest)%list.
Proof.
  induction a as [|c a IH]; intros cur Ha Hsep; simpl in *.
  - now rewrite Hsep, append_empty_r.
  - apply orb_false_iff in Ha. destruct Ha as [Hc Ha].
    now rewrite Hc, (IH _ Ha Hsep), append_snoc.
Qed.

(** X17.  When the output of [hostname] holds no pattern character, the
    command line of [wifi-connect] does not depend on the files of the
    working directory: it is [--portal-ssid] followed by the fields of
    the output, and no argument is empty or holds white space. *)
Theorem argv_without_pattern_characters (w : world) :
  string_exists is_pattern_char (hostname_stdout w) = false ->
  S.wifi_connect_argv w
  = "./wifi-connect" :: "--portal-ssid" :: split_fields (hostname_stdout w)
  /\ Forall (fun a => a <> "" /\ string_exists is_ifs a = false)
            (S.wifi_connect_argv w).
Proof.
  intros H. unfold S.wifi_connect_argv.
  rewrite (expand_unquoted_no_pattern _ _ H). split; [reflexivity|].
  constructor; [split; [discriminate | reflexivity]|].
  constructor; [split; [discriminate | reflexivity]|].
  now apply split_fields_from_fields.
Qed.

Lemma argv_without_pattern_characters_witness :
  S.wifi_connect_argv offline_failing
  = "./wifi-connect" :: "--portal-ssid"
      :: split_fields (hostname_stdout offline_failing)
  /\ Forall (fun a => a <> "" /\ string_exists is_ifs a = false)
            (S.wifi_connect_argv offline_failing).
Proof.
  apply (argv_without_pattern_characters offline_failing). reflexivity.
Defined.

(** X18.  [wifi-connect] is started with [--portal-ssid] and no value
    after it exactly when the output of [hostname] is empty or holds
    white space only, whatever the files of the working directory. *)
Theorem portal_ssid_without_value_iff_blank_hostname (w : world) :
  S.wifi_connect_argv w = ["./wifi-connect"; "--portal-ssid"]
  <-> string_exists (fun c => negb (is_ifs c)) (hostname_stdout w) = false.
Proof.
  unfold S.wifi_connect_argv. split.
  - intros H. injection H as H. apply expand_unquoted_nil in H.
    apply (split_fields_from_nil _ "") in H. tauto.
  - intros H.
    assert (E : expand_unquoted (matches w) (hostname_stdout w) = []).
    { apply expand_unquoted_nil. apply split_fields_from_nil. auto. }
    now rewrite E.
Qed.

(** X19.  When the output of [hostname] is two plain words with a
    separator between them, followed by a newline, only the first word
    is the value of [--portal-ssid]; the second is a further argument of
    [wifi-connect]. *)
Theorem hostname_of_two_words_gives_two_arguments
        (w : world) (a b : string) (sep : ascii) :
  plain_word a = true ->
  plain_word b = true ->
  is_ifs sep = true ->
  hostname_stdout w = a ++ String sep (b ++ newline) ->
  S.wifi_connect_argv w = ["./wifi-connect"; "--portal-ssid"; a; b].
Proof.
  unfold plain_word. intros Ha Hb Hsep Hout.
  apply andb_true_iff in Ha. destruct Ha as [Ha Hap].
  apply andb_true_iff in Ha. destruct Ha as [Hane Hai].
  apply andb_true_iff in Hb. destruct Hb as [Hb Hbp].
  apply andb_true_iff in Hb. destruct Hb as [Hbne Hbi].
  apply negb_true_iff in Hap, Hane, Hai, Hbp, Hbne, Hbi.
  unfold S.wifi_connect_argv, expand_unquoted, split_fields.
  rewrite Hout, (split_fields_from_sep a sep _ "" Hai Hsep).
  unfold split_fields. rewrite (split_fields_from_line b "" Hbi). simpl.
  destruct a as [|ca a]; [discriminate|].
  destruct b as [|cb b]; [discriminate|].
  simpl. unfold pathname_expand. now rewrite Hap, Hbp.
Qed.

Lemma hostname_of_two_words_gives_two_arguments_witness :
  S.wifi_connect_argv two_word_hostname
  = ["./wifi-connect"; "--portal-ssid"; "data"; "hub"].
Proof.
  apply (hostname_of_two_words_gives_two_arguments
           two_word_hostname "data" "hub" " "); reflexivity.
Defined.

End ArgvFacts.
